(** * Posture service: consent-gated event log and windowed summary

    A shallow embedding of [src/backend/app.py].  The SQLite database is a
    pair of optional tables (a table that was never created is [None]); every
    [with db_conn() as conn] block is a transaction over that store which is
    committed when the body returns and rolled back when it raises.  The
    wall clock is an input: [now] stands for the value [int(time.time())]
    yields at the call that reads it. *)

From stdpp Require Import gmap strings list fin_maps.
From Stdlib Require Import QArith.

Local Close Scope Q_scope.
Local Open Scope string_scope.
Local Open Scope list_scope.
Local Open Scope Z_scope.

(** ** The persisted store *)

(** A row of [events(id INTEGER PRIMARY KEY, ts INTEGER NOT NULL,
    label TEXT NOT NULL CHECK(label IN ('good','slouched')))]. *)
Record Event : Type := mkEvent {
  ev_id : Z;
  ev_ts : Z;
  ev_label : string
}.

#[global] Instance Event_eq_dec : EqDecision Event.
Proof. solve_decision. Defined.

(** The database file: the [events] table in insertion order, and the
    [settings(key TEXT PRIMARY KEY, value TEXT NOT NULL)] table as a finite
    map from key to value (the primary key allows one row per key). *)
Record DB : Type := mkDB {
  events : option (list Event);
  settings : option (gmap string string)
}.

(** What a statement or an expression of the program can raise. *)
Inductive error : Type :=
  | OperationalError        (* sqlite3: no such table *)
  | IntegrityError          (* sqlite3: CHECK constraint failed *)
  | ZeroDivisionError       (* Python: division by zero *)
  | RequestValidationError. (* FastAPI: query parameter rejected, HTTP 422 *)

Inductive result (A : Type) : Type :=
  | Ok (a : A)
  | Raise (e : error).
Arguments Ok {A} a.
Arguments Raise {A} e.

(** ** Computations over the store *)

(** A computation reads and writes the store and may raise; the store it
    leaves behind is kept in both cases. *)
Definition M (A : Type) : Type := DB → result A * DB.

Definition ret {A} (a : A) : M A := λ db, (Ok a, db).

Definition raise {A} (e : error) : M A := λ db, (Raise e, db).

Definition bind {A B} (m : M A) (k : A → M B) : M B :=
  λ db, match m db with
        | (Ok a, db') => k a db'
        | (Raise e, db') => (Raise e, db')
        end.

Notation "x ←← m ;; k" := (bind m (λ x, k))
  (at level 100, m at next level, right associativity, only parsing).
Notation "m ;;; k" := (bind m (λ _, k))
  (at level 100, right associativity, only parsing).

(** [db_conn]: [yield conn], then [conn.commit()]; [finally: conn.close()].
    When the body raises, the connection is closed without a commit, which
    discards what the body wrote. *)
Definition db_conn {A} (body : M A) : M A :=
  λ db, match body db with
        | (Ok a, db') => (Ok a, db')
        | (Raise e, _) => (Raise e, db)
        end.

(** ** SQL statements *)

(** [CREATE TABLE IF NOT EXISTS events (...)] *)
Definition create_events_if_not_exists : M unit :=
  λ db, (Ok (), mkDB (Some (default [] (events db))) (settings db)).

(** [CREATE TABLE IF NOT EXISTS settings (...)] *)
Definition create_settings_if_not_exists : M unit :=
  λ db, (Ok (), mkDB (events db) (Some (default ∅ (settings db)))).

(** [INSERT OR IGNORE INTO settings(key, value) VALUES(k, v)]: a row whose
    key is taken is left alone. *)
Definition insert_or_ignore_setting (k v : string) : M unit :=
  λ db, match settings db with
        | None => (Raise OperationalError, db)
        | Some m =>
            match m !! k with
            | Some _ => (Ok (), db)
            | None => (Ok (), mkDB (events db) (Some (<[k := v]> m)))
            end
        end.

(** [INSERT INTO settings(key, value) VALUES(k, v)
     ON CONFLICT(key) DO UPDATE SET value=excluded.value] *)
Definition upsert_setting (k v : string) : M unit :=
  λ db, match settings db with
        | None => (Raise OperationalError, db)
        | Some m => (Ok (), mkDB (events db) (Some (<[k := v]> m)))
        end.

(** [SELECT value FROM settings WHERE key=k] followed by [fetchone()]. *)
Definition select_setting_value (k : string) : M (option string) :=
  λ db, match settings db with
        | None => (Raise OperationalError, db)
        | Some m => (Ok (m !! k), db)
        end.

(** The rowid SQLite gives a row inserted without one: 1 in an empty table,
    otherwise one more than the largest rowid in use. This is SQLite's rule
    while the largest rowid is below 2^63 - 1; at that rowid SQLite picks an
    unused one at random, which is not modelled, so nothing below relies on
    how the new id compares with the stored ones. *)
Definition next_rowid (evs : list Event) : Z :=
  match evs with
  | [] => 1
  | e :: evs' => 1 + foldr Z.max (ev_id e) (ev_id <$> evs')
  end.

(** The [CHECK(label IN ('good','slouched'))] constraint of the schema. *)
Definition label_check (label : string) : bool :=
  bool_decide (label = "good") || bool_decide (label = "slouched").

(** [INSERT INTO events(ts, label) VALUES(ts, label)] *)
Definition insert_event (ts : Z) (label : string) : M unit :=
  λ db, match events db with
        | None => (Raise OperationalError, db)
        | Some evs =>
            if label_check label
            then (Ok (), mkDB (Some (evs ++ [mkEvent (next_rowid evs) ts label]))
                              (settings db))
            else (Raise IntegrityError, db)
        end.

(** [WHERE ts >= since] *)
Definition in_window (since : Z) (evs : list Event) : list Event :=
  filter (λ e, since ≤ ev_ts e) evs.

(** [COUNT( * )] of the rows of one group. *)
Definition count_label (l : string) (evs : list Event) : Z :=
  Z.of_nat (length (filter (λ e, ev_label e = l) evs)).

(** [GROUP BY label]: one row [(label, COUNT( * ))] per label that occurs.
    SQL leaves the order of the groups open; nothing below depends on it. *)
Definition group_by_label (evs : list Event) : list (string * Z) :=
  (λ l, (l, count_label l evs)) <$> remove_dups (ev_label <$> evs).

(** [SELECT label, COUNT( * ) FROM events WHERE ts >= since GROUP BY label]
    followed by [fetchall()]. *)
Definition select_label_counts (since : Z) : M (list (string * Z)) :=
  λ db, match events db with
        | None => (Raise OperationalError, db)
        | Some evs => (Ok (group_by_label (in_window since evs)), db)
        end.

(** ** Python expressions *)

(** [{row[0]: row[1] for row in rows}]: later rows overwrite earlier ones. *)
Definition dict_of_rows (rows : list (string * Z)) : gmap string Z :=
  foldl (λ d row, <[row.1 := row.2]> d) ∅ rows.

(** [sum(counts.values())] *)
Definition sum_values (counts : gmap string Z) : Z :=
  map_fold (λ _ v acc, acc + v) 0 counts.

(** [a / b] on integers: the quotient as a fraction in lowest terms (the
    rounding of the quotient to a binary64 float is not modelled), and
    [ZeroDivisionError] when [b] is 0. *)
Definition truediv (a b : Z) : M Q :=
  if decide (b = 0) then raise ZeroDivisionError
  else ret (Qred (Qdiv (inject_Z a) (inject_Z b))).

(** The float literal [0.0]. *)
Definition float_zero : Q := Qmake 0 1.

(** ** The service *)

Definition init_db : M unit :=
  db_conn (
    create_events_if_not_exists ;;;
    create_settings_if_not_exists ;;;
    (* Default: no consent *)
    insert_or_ignore_setting "consent" "false").

Definition get_consent : M bool :=
  db_conn (
    row ←← select_setting_value "consent" ;;
    ret (match row with
         | Some value => bool_decide (value = "true")
         | None => false
         end)).

Definition set_consent (value : bool) : M unit :=
  db_conn (upsert_setting "consent" (if value then "true" else "false")).

Definition store_event_if_allowed (now : Z) (label : string) (allow : bool)
  : M unit :=
  if negb allow then ret ()
  else if negb (label_check label) then ret ()
  else db_conn (insert_event now label).

Definition window_start (now : Z) (period : string) : Z :=
  if decide (period = "weekly") then now - 7 * 24 * 3600
  else now - 24 * 3600.

Definition aggregate_summary (now : Z) (period : string) : M (Q * Z) :=
  let since := window_start now period in
  db_conn (
    rows ←← select_label_counts since ;;
    let counts := dict_of_rows rows in
    let total := sum_values counts in
    if decide (total = 0) then ret (float_zero, 0)
    else
      upright_ratio ←← truediv (default 0 (counts !! "good")) total ;;
      ret (upright_ratio, total)).

(** *** Request handlers *)

Record TrackBody : Type := mkTrackBody {
  label : string;
  confidence : option Q
}.

Record TrackResponse : Type := mkTrackResponse { stored : bool }.

Record SummaryResponse : Type := mkSummaryResponse {
  uprightRatio : Q;
  totalEvents : Z
}.


Definition health : M bool := ret true.

Definition get_consent_route : M bool := get_consent.

Definition set_consent_route (body_consent : bool) : M bool :=
  set_consent body_consent ;;; get_consent.

(** [now] is the clock reading at the insertion. *)
Definition track (now : Z) (body : TrackBody) : M TrackResponse :=
  consent ←← get_consent ;;
  if negb consent then ret (mkTrackResponse false)
  else if negb (label_check (label body)) then ret (mkTrackResponse false)
  else
    store_event_if_allowed now (label body) true ;;;
    ret (mkTrackResponse true).

Definition summary (now : Z) (period : string) : M SummaryResponse :=
  consent ←← get_consent ;;
  if negb consent then ret (mkSummaryResponse float_zero 0)
  else
    rt ←← aggregate_summary now period ;;
    ret (mkSummaryResponse rt.1 rt.2).

(** [Query(default="daily", pattern="^(daily|weekly)$")]: the framework
    fills in the default and rejects a value the pattern does not match
    before the handler runs. *)
Definition period_pattern (period : string) : bool :=
  bool_decide (period = "daily") || bool_decide (period = "weekly").

Definition summary_query (now : Z) (period : option string)
  : M SummaryResponse :=
  let p := default "daily" period in
  if period_pattern p then summary now p else raise RequestValidationError.

(** *** The application *)

(** The routes registered on [app], each with its validated input: the
    body of [POST /api/consent] is [ConsentBody.consent], the body of
    [POST /api/track] a [TrackBody], and [GET /api/summary] carries the
    optional query parameter [period]. A POST whose JSON body does not
    fit its model is answered 422 by the framework before any handler
    runs; such requests are outside this type. *)
Inductive Request : Type :=
  | GetHealth
  | GetConsent
  | PostConsent (body_consent : bool)
  | PostTrack (body : TrackBody)
  | GetSummary (period : option string).

(** The JSON bodies the handlers return: [{"ok": ..}], [{"consent": ..}],
    [{"stored": ..}] and [{"uprightRatio": .., "totalEvents": ..}]. *)
Inductive Response : Type :=
  | HealthJson (ok : bool)
  | ConsentJson (consent_flag : bool)
  | TrackJson (r : TrackResponse)
  | SummaryJson (r : SummaryResponse).

(** Dispatch of one request to its handler; [now] is the clock reading the
    handler sees. *)
Definition app (now : Z) (req : Request) : M Response :=
  match req with
  | GetHealth => ok ←← health ;; ret (HealthJson ok)
  | GetConsent => c ←← get_consent_route ;; ret (ConsentJson c)
  | PostConsent v => c ←← set_consent_route v ;; ret (ConsentJson c)
  | PostTrack body => r ←← track now body ;; ret (TrackJson r)
  | GetSummary period => r ←← summary_query now period ;; ret (SummaryJson r)
  end.

(** The store after a sequence of requests, each with its clock reading;
    a request that raises is answered with an error and the next one is
    served from the store it left. *)
Fixpoint serve (reqs : list (Z * Request)) (db : DB) : DB :=
  match reqs with
  | [] => db
  | (now, req) :: rest => serve rest (app now req db).2
  end.

(** ** Reference values and sample stores *)

(** The ratio [aggregate_summary] reports for a given number of good events
    and a given total: 0.0 for an empty window, the quotient otherwise. *)
Definition upright_ratio_of (good total : Z) : Q :=
  if decide (total = 0) then float_zero
  else Qred (Qdiv (inject_Z good) (inject_Z total)).

Definition consent_on : gmap string string := {["consent" := "true"]}.
Definition consent_off : gmap string string := {["consent" := "false"]}.

(** Three good events and a slouched one, all recent at time 1000. *)
Definition sample_events : list Event :=
  [mkEvent 1 990 "good"; mkEvent 2 995 "good";
   mkEvent 3 996 "slouched"; mkEvent 4 999 "good"].

(** A good event next to one whose label is outside the enumeration, as a
    table created without the CHECK constraint can hold. *)
Definition mixed_events : list Event :=
  [mkEvent 1 1000 "good"; mkEvent 2 1000 "sitting"].

(** Events around the daily boundary of [now = 100000]: one second before
    the window opens, at its first second, and well inside. *)
Definition boundary_events : list Event :=
  [mkEvent 1 13599 "good"; mkEvent 2 13600 "slouched"; mkEvent 3 50000 "good"].

Definition one_event : list Event := [mkEvent 7 10 "good"].


(** A fresh database file after startup. *)
Definition fresh_db : DB := (init_db (mkDB None None)).2.

Definition good : TrackBody := mkTrackBody "good" None.
Definition slouched : TrackBody := mkTrackBody "slouched" None.
Definition sitting : TrackBody := mkTrackBody "sitting" None.

(** ** Running computations *)

Lemma bind_ok {A B} (m : M A) (k : A → M B) db a db' :
  m db = (Ok a, db') → bind m k db = k a db'.
Proof. intros H. unfold bind. by rewrite H. Qed.

Lemma bind_raise {A B} (m : M A) (k : A → M B) db e db' :
  m db = (Raise e, db') → bind m k db = (Raise e, db').
Proof. intros H. unfold bind. by rewrite H. Qed.

Lemma db_conn_ok {A} (body : M A) db a db' :
  body db = (Ok a, db') → db_conn body db = (Ok a, db').
Proof. intros H. unfold db_conn. by rewrite H. Qed.

Lemma db_conn_raise {A} (body : M A) db e db' :
  body db = (Raise e, db') → db_conn body db = (Raise e, db).
Proof. intros H. unfold db_conn. by rewrite H. Qed.

(** ** The grouped counts *)

Section grouped_counts.
Implicit Types (evs : list Event) (ls : list string) (l k : string).
Implicit Types (d : gmap string Z) (f : string → Z).

Lemma count_label_nil l : count_label l [] = 0.
Proof. reflexivity. Qed.

Lemma count_label_cons l e evs :
  count_label l (e :: evs) =
  (if decide (ev_label e = l) then 1 else 0) + count_label l evs.
Proof.
  unfold count_label. rewrite filter_cons.
  destruct (decide (ev_label e = l)); simpl; lia.
Qed.

Lemma count_label_nonneg l evs : 0 ≤ count_label l evs.
Proof. unfold count_label. lia. Qed.

Lemma count_label_pos l evs :
  l ∈ ev_label <$> evs ↔ 0 < count_label l evs.
Proof.
  induction evs as [|e evs IH]; simpl.
  - rewrite count_label_nil. split; [by intros ?%elem_of_nil | lia].
  - rewrite count_label_cons, elem_of_cons, IH.
    pose proof (count_label_nonneg l evs).
    destruct (decide (ev_label e = l)) as [->|Hne]; [intuition lia|].
    split; [intros [->|?]; [done|lia] | intros; right; lia].
Qed.

(** Looking a label up in the dictionary built from rows [(l, f l)]. *)
Lemma foldl_rows_lookup f ls d k :
  foldl (λ d row, <[row.1 := row.2]> d) d ((λ l, (l, f l)) <$> ls) !! k =
  if decide (k ∈ ls) then Some (f k) else d !! k.
Proof.
  revert d. induction ls as [|l ls IH]; intros d.
  - destruct (decide (k ∈ [])) as [Hin|_]; [|done].
    by apply elem_of_nil in Hin.
  - rewrite fmap_cons. cbn [foldl]. rewrite IH. cbn [fst snd].
    destruct (decide (k ∈ ls)) as [Hin|Hnin];
      destruct (decide (k ∈ l :: ls)) as [Hin'|Hnin']; try done.
    + exfalso. apply Hnin'. by right.
    + apply elem_of_cons in Hin' as [->|?]; [|done].
      apply lookup_insert_eq.
    + apply lookup_insert_ne. intros ->. apply Hnin'. left.
Qed.

Lemma dict_of_rows_lookup f ls k :
  dict_of_rows ((λ l, (l, f l)) <$> ls) !! k =
  if decide (k ∈ ls) then Some (f k) else None.
Proof. unfold dict_of_rows. by rewrite foldl_rows_lookup, lookup_empty. Qed.

Lemma dict_of_rows_cons f l ls :
  l ∉ ls →
  dict_of_rows ((λ l, (l, f l)) <$> (l :: ls)) =
  <[l := f l]> (dict_of_rows ((λ l, (l, f l)) <$> ls)).
Proof.
  intros Hl. apply map_eq; intros k.
  rewrite lookup_insert, !dict_of_rows_lookup.
  destruct (decide (l = k)) as [Heq|Hne].
  - subst k. destruct (decide (l ∈ l :: ls)) as [_|Hc]; [done|].
    exfalso. apply Hc. left.
  - destruct (decide (k ∈ l :: ls)) as [Hc|Hc];
      destruct (decide (k ∈ ls)) as [Ht|Ht]; try done.
    + apply elem_of_cons in Hc as [Hc|Hc]; [congruence|contradiction].
    + exfalso. apply Hc. by right.
Qed.

Lemma sum_values_empty : sum_values ∅ = 0.
Proof. unfold sum_values. by rewrite map_fold_empty. Qed.

Lemma sum_values_insert d k v :
  d !! k = None → sum_values (<[k := v]> d) = sum_values d + v.
Proof.
  intros Hk. unfold sum_values.
  rewrite map_fold_insert_L; [done | intros; lia | done].
Qed.

Lemma sum_values_rows f ls :
  NoDup ls →
  sum_values (dict_of_rows ((λ l, (l, f l)) <$> ls)) =
  foldr (λ l acc, acc + f l) 0 ls.
Proof.
  induction 1 as [|l ls Hl Hnd IH].
  - apply sum_values_empty.
  - rewrite dict_of_rows_cons by done.
    rewrite sum_values_insert, IH; [done|].
    rewrite dict_of_rows_lookup. by destruct (decide (l ∈ ls)).
Qed.

Lemma filter_Forall_id {A} (P : A → Prop) `{!∀ x, Decision (P x)}
    (xs : list A) :
  Forall P xs → filter P xs = xs.
Proof.
  induction 1 as [|x xs Hx _ IH]; [done|].
  by rewrite filter_cons_True, IH.
Qed.

(** The counts of distinct labels add up to the number of events that
    carry one of them. *)
Lemma sum_count_label ls evs :
  NoDup ls →
  foldr (λ l acc, acc + count_label l evs) 0 ls =
  Z.of_nat (length (filter (λ e, ev_label e ∈ ls) evs)).
Proof.
  induction 1 as [|l ls Hl Hnd IH]; simpl.
  - induction evs as [|e evs IHe]; [done|].
    rewrite filter_cons_False by apply not_elem_of_nil. done.
  - rewrite IH. clear IH. induction evs as [|e evs IHe]; [done|].
    rewrite count_label_cons, !filter_cons.
    destruct (decide (ev_label e = l)) as [->|Hne].
    + rewrite decide_False by done. rewrite decide_True by left.
      simpl. lia.
    + destruct (decide (ev_label e ∈ ls)).
      * rewrite decide_True by (by right). simpl. lia.
      * rewrite decide_False by (rewrite elem_of_cons; tauto). lia.
Qed.

(** The dictionary [aggregate_summary] builds: a label is a key exactly
    when an event carries it, and its value is how many do. *)
Lemma counts_lookup evs l :
  dict_of_rows (group_by_label evs) !! l =
  if decide (count_label l evs = 0) then None
  else Some (count_label l evs).
Proof.
  unfold group_by_label. rewrite dict_of_rows_lookup.
  pose proof (count_label_pos l evs) as Hpos.
  pose proof (count_label_nonneg l evs).
  destruct (decide (l ∈ remove_dups (ev_label <$> evs))) as [Hin|Hnin];
    rewrite elem_of_remove_dups in *.
  - rewrite decide_False; [done|]. apply Hpos in Hin. lia.
  - rewrite decide_True; [done|].
    destruct (decide (count_label l evs = 0)); [done|].
    exfalso. apply Hnin, Hpos. lia.
Qed.

Lemma counts_get evs l :
  default 0 (dict_of_rows (group_by_label evs) !! l) = count_label l evs.
Proof. rewrite counts_lookup. by case_decide. Qed.

(** [sum(counts.values())] is the number of selected rows, whatever
    their labels are. *)
Lemma counts_total evs :
  sum_values (dict_of_rows (group_by_label evs)) = Z.of_nat (length evs).
Proof.
  unfold group_by_label.
  rewrite sum_values_rows by apply NoDup_remove_dups.
  rewrite sum_count_label by apply NoDup_remove_dups.
  do 2 f_equal. apply filter_Forall_id, Forall_forall. intros e He.
  rewrite elem_of_remove_dups. apply list_elem_of_fmap. eauto.
Qed.
End grouped_counts.

(** ** What the operations compute *)

Section operations.
Implicit Types (db : DB) (evs : list Event) (m : gmap string string).
Implicit Types (now since : Z) (period : string).

Lemma get_consent_run (tbl : option (list Event)) m :
  get_consent (mkDB tbl (Some m)) =
  (Ok (match m !! "consent" with
       | Some value => bool_decide (value = "true")
       | None => false
       end), mkDB tbl (Some m)).
Proof. reflexivity. Qed.

Lemma get_consent_no_table (tbl : option (list Event)) :
  get_consent (mkDB tbl None) = (Raise OperationalError, mkDB tbl None).
Proof. reflexivity. Qed.

(** Reading the flag never writes. *)
Lemma get_consent_inv db c :
  (get_consent db).1 = Ok c → get_consent db = (Ok c, db).
Proof.
  destruct db as [tbl [m|]].
  - rewrite get_consent_run. simpl. by intros [= ->].
  - rewrite get_consent_no_table. by intros [=].
Qed.

Lemma set_consent_run (tbl : option (list Event)) m (value : bool) :
  set_consent value (mkDB tbl (Some m)) =
  (Ok (), mkDB tbl
            (Some (<["consent" := if value then "true" else "false"]> m))).
Proof. reflexivity. Qed.

Lemma aggregate_summary_run evs st now period :
  let W := in_window (window_start now period) evs in
  let total := Z.of_nat (length W) in
  aggregate_summary now period (mkDB (Some evs) st) =
  (Ok (upright_ratio_of (count_label "good" W) total, total),
   mkDB (Some evs) st).
Proof.
  intros W total. unfold aggregate_summary, db_conn, bind.
  unfold select_label_counts. cbn [events].
  fold W. rewrite counts_total, counts_get. fold total.
  unfold upright_ratio_of, truediv.
  clearbody total W.
  destruct (decide (total = 0)) as [->|Hnz]; [done|].
  unfold ret. by destruct (decide (total = 0)).
Qed.

Lemma aggregate_summary_no_table st now period :
  aggregate_summary now period (mkDB None st) =
  (Raise OperationalError, mkDB None st).
Proof. reflexivity. Qed.

Lemma in_window_elem since evs e :
  e ∈ in_window since evs ↔ e ∈ evs ∧ since ≤ ev_ts e.
Proof. unfold in_window. rewrite list_elem_of_filter. tauto. Qed.

Lemma label_check_spec l :
  label_check l = true ↔ l = "good" ∨ l = "slouched".
Proof.
  unfold label_check.
  rewrite orb_true_iff, !bool_decide_eq_true. tauto.
Qed.

(** Under the schema's CHECK constraint the rows split into the two
    known labels. *)
Lemma known_labels_total evs :
  Forall (λ e, label_check (ev_label e) = true) evs →
  Z.of_nat (length evs) =
  count_label "good" evs + count_label "slouched" evs.
Proof.
  induction 1 as [|e evs He _ IH]; [done|].
  rewrite !count_label_cons, <- Z.add_shuffle1, <- IH.
  apply label_check_spec in He.
  rewrite length_cons, Nat2Z.inj_succ.
  destruct He as [He|He]; rewrite He; repeat case_decide; try done; lia.
Qed.
End operations.

(** ** Properties of the service *)

Section claims.
Implicit Types (db : DB) (evs : list Event) (m : gmap string string).
Implicit Types (tbl : option (list Event)) (now : Z) (period : string).
Implicit Types (body : TrackBody).

(** C1 as the specification words it, which the code does not satisfy:
    [total_events] would be the number of good and slouched events in the
    window. The store below holds one good event and one event with a
    label outside the enumeration; the code reports two events and a
    ratio of one half. *)
Lemma aggregate_summary_counts_unknown_labels :
  ¬ (∀ now period evs st ratio total,
       aggregate_summary now period (mkDB (Some evs) st) =
         (Ok (ratio, total), mkDB (Some evs) st) →
       let W := in_window (window_start now period) evs in
       let known := count_label "good" W + count_label "slouched" W in
       total = known ∧
       ratio = upright_ratio_of (count_label "good" W) known).
Proof.
  intros H.
  specialize (H 1000 "daily" mixed_events None (Qmake 1 2) 2 eq_refl).
  destruct H as [H _]. vm_compute in H. discriminate H.
Qed.

(** C1 (amended): [aggregate_summary] counts every event of the window,
    whatever its label: [total_events] is the number of rows with
    [ts >= since] and the ratio is the number of good ones over that
    total (0.0 when the total is 0). When every row of the window
    satisfies the schema's CHECK constraint, the total is
    count(good) + count(slouched). *)
Theorem aggregate_summary_all_labels evs st now period :
  let W := in_window (window_start now period) evs in
  let total := Z.of_nat (length W) in
  aggregate_summary now period (mkDB (Some evs) st) =
    (Ok (upright_ratio_of (count_label "good" W) total, total),
     mkDB (Some evs) st) ∧
  (Forall (λ e, label_check (ev_label e) = true) W →
   total = count_label "good" W + count_label "slouched" W).
Proof.
  intros W total. split.
  - apply aggregate_summary_run.
  - apply known_labels_total.
Qed.

Lemma aggregate_summary_all_labels_witness :
  aggregate_summary 1000 "daily" (mkDB (Some sample_events) None) =
    (Ok (Qmake 3 4, 4), mkDB (Some sample_events) None) ∧
  4 = count_label "good" sample_events +
      count_label "slouched" sample_events.
Proof.
  destruct (aggregate_summary_all_labels sample_events None 1000 "daily")
    as [Hrun Hsum].
  split.
  - exact Hrun.
  - apply Hsum. vm_compute. repeat constructor.
Defined.

(** C2: with period daily, [aggregate_summary] (and [summary], once
    consent is given) counts exactly the events with
    [ts >= now - 86400]: an event at [now - 86400] is counted, one at
    [now - 86401] is not; with period weekly, exactly those with
    [ts >= now - 7*24*3600]. *)
Theorem summary_window evs st now :
  let db := mkDB (Some evs) st in
  let daily := filter (λ e, now - 86400 ≤ ev_ts e) evs in
  let weekly := filter (λ e, now - 7 * 24 * 3600 ≤ ev_ts e) evs in
  let answer (W : list Event) :=
    let total := Z.of_nat (length W) in
    (upright_ratio_of (count_label "good" W) total, total) in
  aggregate_summary now "daily" db = (Ok (answer daily), db) ∧
  aggregate_summary now "weekly" db = (Ok (answer weekly), db) ∧
  ((get_consent db).1 = Ok true →
   summary now "daily" db =
     (Ok (mkSummaryResponse (answer daily).1 (answer daily).2), db) ∧
   summary now "weekly" db =
     (Ok (mkSummaryResponse (answer weekly).1 (answer weekly).2), db)) ∧
  (∀ e, e ∈ evs → ev_ts e = now - 86400 → e ∈ daily) ∧
  (∀ e, ev_ts e = now - 86401 → e ∉ daily).
Proof.
  intros db daily weekly answer.
  assert (aggregate_summary now "daily" db = (Ok (answer daily), db)) as Hd
    by apply aggregate_summary_run.
  assert (aggregate_summary now "weekly" db = (Ok (answer weekly), db)) as Hw
    by apply aggregate_summary_run.
  split; [done|]. split; [done|]. split; [|split].
  - intros Hg%get_consent_inv. unfold summary.
    rewrite !(bind_ok _ _ _ _ _ Hg). cbn [negb].
    by rewrite (bind_ok _ _ _ _ _ Hd), (bind_ok _ _ _ _ _ Hw).
  - intros e He Hts. apply list_elem_of_filter. split; [lia|done].
  - intros e Hts [Hle _]%list_elem_of_filter. lia.
Qed.

Lemma summary_window_witness :
  summary 100000 "daily" (mkDB (Some boundary_events) (Some consent_on)) =
    (Ok (mkSummaryResponse (Qmake 1 2) 2),
     mkDB (Some boundary_events) (Some consent_on)) ∧
  mkEvent 2 13600 "slouched" ∈
    filter (λ e, 100000 - 86400 ≤ ev_ts e) boundary_events ∧
  mkEvent 1 13599 "good" ∉
    filter (λ e, 100000 - 86400 ≤ ev_ts e) boundary_events.
Proof.
  destruct (summary_window boundary_events (Some consent_on) 100000)
    as (_ & _ & Hsum & Hin & Hout).
  split; [|split].
  - exact (proj1 (Hsum eq_refl)).
  - apply Hin; [|reflexivity]. right. left.
  - apply Hout. reflexivity.
Defined.

Lemma init_db_present tbl m v :
  m !! "consent" = Some v →
  init_db (mkDB tbl (Some m)) =
    (Ok (), mkDB (Some (default [] tbl)) (Some m)).
Proof.
  intros Hv. unfold init_db, db_conn, bind.
  cbn [create_events_if_not_exists create_settings_if_not_exists
       events settings default from_option id].
  unfold insert_or_ignore_setting. cbn [settings]. by rewrite Hv.
Qed.

Lemma init_db_absent tbl m :
  m !! "consent" = None →
  init_db (mkDB tbl (Some m)) =
    (Ok (), mkDB (Some (default [] tbl)) (Some (<["consent" := "false"]> m))).
Proof.
  intros Hv. unfold init_db, db_conn, bind.
  cbn [create_events_if_not_exists create_settings_if_not_exists
       events settings default from_option id].
  unfold insert_or_ignore_setting. cbn [settings events]. by rewrite Hv.
Qed.

Lemma init_db_no_table tbl :
  init_db (mkDB tbl None) =
    (Ok (), mkDB (Some (default [] tbl)) (Some {["consent" := "false"]})).
Proof. reflexivity. Qed.

(** [init_db] always succeeds and leaves both tables and a consent row. *)
Lemma init_db_run tbl st :
  ∃ m', init_db (mkDB tbl st) =
          (Ok (), mkDB (Some (default [] tbl)) (Some m')) ∧
        is_Some (m' !! "consent").
Proof.
  destruct st as [m|].
  - destruct (m !! "consent") as [v|] eqn:Hv.
    + exists m. split; [by eapply init_db_present|]. by rewrite Hv.
    + exists (<["consent" := "false"]> m).
      split; [by apply init_db_absent|]. by rewrite lookup_insert_eq.
  - exists {["consent" := "false"]}. split; [apply init_db_no_table|].
    by rewrite lookup_singleton_eq.
Qed.

(** Initializing twice is the same as initializing once. *)
Lemma init_db_twice tbl st :
  (init_db ;;; init_db) (mkDB tbl st) = init_db (mkDB tbl st).
Proof.
  destruct (init_db_run tbl st) as (m1 & H1 & [v Hv]).
  rewrite (bind_ok _ _ _ _ _ H1), H1.
  by rewrite (init_db_present _ _ v Hv).
Qed.

(** C3: [init_db] on a store whose settings already hold a consent value
    leaves the settings as they are; when the key is absent (or the table
    is) it is created with the value ["false"]. So a value written after
    a first initialization is what [get_consent] reads after a second
    one. *)
Theorem init_db_keeps_consent tbl m :
  (∀ v, m !! "consent" = Some v →
        init_db (mkDB tbl (Some m)) =
          (Ok (), mkDB (Some (default [] tbl)) (Some m))) ∧
  (m !! "consent" = None →
   init_db (mkDB tbl (Some m)) =
     (Ok (), mkDB (Some (default [] tbl))
                  (Some (<["consent" := "false"]> m)))) ∧
  init_db (mkDB tbl None) =
    (Ok (), mkDB (Some (default [] tbl)) (Some {["consent" := "false"]})) ∧
  (∀ st (v : bool),
     ((init_db ;;; set_consent v ;;; init_db ;;; get_consent)
        (mkDB tbl st)).1 = Ok v).
Proof.
  split; [|split; [|split]].
  - apply init_db_present.
  - apply init_db_absent.
  - apply init_db_no_table.
  - intros st v. destruct (init_db_run tbl st) as (m1 & H1 & _).
    rewrite (bind_ok _ _ _ _ _ H1).
    rewrite (bind_ok _ _ _ _ _ (set_consent_run _ m1 v)).
    erewrite bind_ok by (eapply init_db_present; apply lookup_insert_eq).
    rewrite get_consent_run, lookup_insert_eq. by destruct v.
Qed.

Lemma init_db_keeps_consent_witness :
  init_db (mkDB (Some one_event) (Some consent_on)) =
    (Ok (), mkDB (Some one_event) (Some consent_on)) ∧
  init_db (mkDB (Some one_event) (Some ∅)) =
    (Ok (), mkDB (Some one_event) (Some consent_off)).
Proof.
  split.
  - exact (proj1 (init_db_keeps_consent (Some one_event) consent_on)
             "true" eq_refl).
  - exact (proj1 (proj2 (init_db_keeps_consent (Some one_event) ∅)) eq_refl).
Defined.

(** C4: whatever the settings table holds (a consent row or none),
    [set_consent v] followed by [get_consent] returns [v]; the write
    inserts the row when it is absent and overwrites it otherwise. *)
Theorem set_get_consent tbl m (v : bool) :
  let db' :=
    mkDB tbl (Some (<["consent" := if v then "true" else "false"]> m)) in
  set_consent v (mkDB tbl (Some m)) = (Ok (), db') ∧
  get_consent db' = (Ok v, db') ∧
  set_consent_route v (mkDB tbl (Some m)) = (Ok v, db').
Proof.
  intros db'.
  assert (get_consent db' = (Ok v, db')) as Hg.
  { unfold db'. rewrite get_consent_run, lookup_insert_eq. by destruct v. }
  split; [apply set_consent_run|]. split; [done|].
  unfold set_consent_route.
  by rewrite (bind_ok _ _ _ _ _ (set_consent_run tbl m v)).
Qed.

(** C5: while the stored consent flag reads false, a track request
    leaves the store as it is, for every label, and answers
    [stored = false] instead of raising. *)
Theorem track_without_consent db now body :
  (get_consent db).1 = Ok false →
  track now body db = (Ok (mkTrackResponse false), db).
Proof.
  intros Hg%get_consent_inv. unfold track.
  by rewrite (bind_ok _ _ _ _ _ Hg).
Qed.

Lemma track_without_consent_witness :
  track 20 (mkTrackBody "good" None)
        (mkDB (Some one_event) (Some consent_off)) =
    (Ok (mkTrackResponse false), mkDB (Some one_event) (Some consent_off)).
Proof.
  exact (track_without_consent (mkDB (Some one_event) (Some consent_off))
           20 (mkTrackBody "good" None) eq_refl).
Defined.

(** C6: for either consent state, a track request whose label is neither
    good nor slouched leaves the store as it is, so every later summary
    is what it was, and answers [stored = false]. *)
Theorem track_unknown_label db now body (consent : bool) :
  (get_consent db).1 = Ok consent →
  label body ≠ "good" → label body ≠ "slouched" →
  track now body db = (Ok (mkTrackResponse false), db) ∧
  (∀ now' period,
     aggregate_summary now' period (track now body db).2 =
     aggregate_summary now' period db).
Proof.
  intros Hg%get_consent_inv Hgood Hslouched.
  assert (label_check (label body) = false) as Hchk.
  { apply not_true_is_false. rewrite label_check_spec. tauto. }
  assert (track now body db = (Ok (mkTrackResponse false), db)) as Ht.
  { unfold track. rewrite (bind_ok _ _ _ _ _ Hg), Hchk.
    by destruct consent. }
  split; [done|]. intros now' period. by rewrite Ht.
Qed.

Lemma track_unknown_label_witness :
  track 20 (mkTrackBody "sitting" None)
        (mkDB (Some one_event) (Some consent_on)) =
    (Ok (mkTrackResponse false), mkDB (Some one_event) (Some consent_on)).
Proof.
  refine (proj1 (track_unknown_label
                   (mkDB (Some one_event) (Some consent_on)) 20
                   (mkTrackBody "sitting" None) true eq_refl _ _));
    discriminate.
Defined.

(** C7: with consent stored as true and a label that is good or
    slouched, a track request appends one event carrying the clock
    reading of the insertion and the given label, answers
    [stored = true], and leaves the earlier events and the settings as
    they were. *)
Theorem track_stores_event evs m now body :
  m !! "consent" = Some "true" →
  label body = "good" ∨ label body = "slouched" →
  track now body (mkDB (Some evs) (Some m)) =
    (Ok (mkTrackResponse true),
     mkDB (Some (evs ++ [mkEvent (next_rowid evs) now (label body)]))
          (Some m)).
Proof.
  intros Hc Hl%label_check_spec. unfold track.
  assert (get_consent (mkDB (Some evs) (Some m)) =
          (Ok true, mkDB (Some evs) (Some m))) as Hg.
  { rewrite get_consent_run, Hc. done. }
  rewrite (bind_ok _ _ _ _ _ Hg), Hl. cbn [negb].
  unfold store_event_if_allowed. rewrite Hl. cbn [negb].
  unfold bind, db_conn, insert_event. cbn [events settings].
  by rewrite Hl.
Qed.

Lemma track_stores_event_witness :
  track 20 (mkTrackBody "slouched" None)
        (mkDB (Some one_event) (Some consent_on)) =
    (Ok (mkTrackResponse true),
     mkDB (Some [mkEvent 7 10 "good"; mkEvent 8 20 "slouched"])
          (Some consent_on)).
Proof.
  exact (track_stores_event one_event consent_on 20
           (mkTrackBody "slouched" None) eq_refl (or_intror eq_refl)).
Defined.





(** C9: when the settings table has no row with key consent,
    [get_consent] returns false. *)
Theorem get_consent_default tbl m :
  m !! "consent" = None →
  get_consent (mkDB tbl (Some m)) = (Ok false, mkDB tbl (Some m)).
Proof. intros Hm. by rewrite get_consent_run, Hm. Qed.

Lemma get_consent_default_witness :
  get_consent (mkDB (Some one_event) (Some ∅)) =
    (Ok false, mkDB (Some one_event) (Some ∅)).
Proof. exact (get_consent_default (Some one_event) ∅ eq_refl). Defined.

(** C10: every period other than the exact string weekly makes
    [aggregate_summary] answer on the daily window, the events with
    [ts >= now - 24*3600], and weekly makes it answer on the events with
    [ts >= now - 7*24*3600]. [aggregate_summary] itself never turns a
    period away; a period that is neither daily nor weekly is rejected
    only by the query pattern in front of the handler. *)
Theorem aggregate_summary_period now period db :
  period ≠ "weekly" →
  let answer (W : list Event) :=
    let total := Z.of_nat (length W) in
    (upright_ratio_of (count_label "good" W) total, total) in
  window_start now period = now - 24 * 3600 ∧
  window_start now "weekly" = now - 7 * 24 * 3600 ∧
  aggregate_summary now period db = aggregate_summary now "daily" db ∧
  (∀ evs st,
     db = mkDB (Some evs) st →
     aggregate_summary now period db =
       (Ok (answer (filter (λ e, now - 24 * 3600 ≤ ev_ts e) evs)), db) ∧
     aggregate_summary now "weekly" db =
       (Ok (answer (filter (λ e, now - 7 * 24 * 3600 ≤ ev_ts e) evs)), db)) ∧
  (aggregate_summary now period db).1 ≠ Raise RequestValidationError ∧
  (period ≠ "daily" →
   summary_query now (Some period) db = (Raise RequestValidationError, db)).
Proof.
  intros Hw answer.
  assert (window_start now period = now - 24 * 3600) as Hs.
  { unfold window_start. by destruct (decide (period = "weekly")). }
  split; [done|]. split; [done|]. split; [|split; [|split]].
  - unfold aggregate_summary. by rewrite Hs.
  - intros evs st ->. split.
    + pose proof (aggregate_summary_run evs st now period) as Hrun.
      cbv zeta in Hrun. rewrite Hs in Hrun. exact Hrun.
    + apply (aggregate_summary_run evs st now "weekly").
  - destruct db as [[evs|] st].
    + pose proof (aggregate_summary_run evs st now period) as Hrun.
      cbv zeta in Hrun. by rewrite Hrun.
    + by rewrite aggregate_summary_no_table.
  - intros Hd. unfold summary_query, period_pattern.
    cbn [default from_option id].
    by rewrite !bool_decide_eq_false_2.
Qed.

Lemma aggregate_summary_period_witness :
  aggregate_summary 100000 "monthly"
                    (mkDB (Some boundary_events) (Some consent_on)) =
    (Ok (Qmake 1 2, 2), mkDB (Some boundary_events) (Some consent_on)) ∧
  aggregate_summary 100000 "weekly"
                    (mkDB (Some boundary_events) (Some consent_on)) =
    (Ok (Qmake 2 3, 3), mkDB (Some boundary_events) (Some consent_on)) ∧
  summary_query 100000 (Some "monthly")
                (mkDB (Some boundary_events) (Some consent_on)) =
    (Raise RequestValidationError,
     mkDB (Some boundary_events) (Some consent_on)).
Proof.
  assert ("monthly" ≠ "weekly") as Hne by discriminate.
  destruct (aggregate_summary_period 100000 "monthly"
              (mkDB (Some boundary_events) (Some consent_on)) Hne)
    as (_ & _ & _ & Hwin & _ & Hquery).
  destruct (Hwin boundary_events (Some consent_on) eq_refl) as [Hd Hwk].
  split; [|split].
  - exact Hd.
  - exact Hwk.
  - apply Hquery. discriminate.
Defined.
End claims.

(** ** Scenarios *)

(** The store the counterexample to C1 is read off: the code reports both
    events, the good one and the one with the unknown label. *)
Example aggregate_summary_mixed_run :
  aggregate_summary 1000 "daily" (mkDB (Some mixed_events) None) =
    (Ok (Qmake 1 2, 2), mkDB (Some mixed_events) None).
Proof. reflexivity. Qed.

(** Without consent: the flag reads false, tracking stores nothing and the
    summary is empty. *)
Example scenario_no_consent :
  (get_consent_route fresh_db).1 = Ok false ∧
  track 1000 good fresh_db = (Ok (mkTrackResponse false), fresh_db) ∧
  (summary_query 1001 None fresh_db).1 = Ok (mkSummaryResponse float_zero 0).
Proof. repeat split. Qed.

(** Consent, then three good events and a slouched one within a minute:
    the daily summary is 0.75 over 4 events. *)
Example scenario_three_good_one_slouched :
  ((set_consent_route true ;;;
    track 1000 good ;;; track 1010 good ;;; track 1020 good ;;;
    track 1030 slouched ;;;
    summary_query 1060 (Some "daily")) fresh_db).1 =
  Ok (mkSummaryResponse (Qmake 3 4) 4).
Proof. vm_compute. reflexivity. Qed.

(** An invalid label with consent given is not stored and the counts stay
    as they were. *)
Example scenario_invalid_label :
  ((set_consent_route true ;;; track 1000 good ;;;
    r ←← track 1010 sitting ;;
    s ←← summary_query 1060 (Some "daily") ;;
    ret (r, s)) fresh_db).1 =
  Ok (mkTrackResponse false, mkSummaryResponse (Qmake 1 1) 1).
Proof. vm_compute. reflexivity. Qed.

(** The daily boundary: of the events at [now - 86401], [now - 86400] and
    inside the window, the last two are counted. *)
Example scenario_daily_boundary :
  in_window (window_start 100000 "daily") boundary_events =
    [mkEvent 2 13600 "slouched"; mkEvent 3 50000 "good"].
Proof. reflexivity. Qed.

(** ** Further properties of the handlers *)

Section handlers.
Implicit Types (db : DB) (evs : list Event) (m : gmap string string).
Implicit Types (tbl : option (list Event)) (st : option (gmap string string)).
Implicit Types (now : Z) (period : string) (body : TrackBody).

(** The flag [get_consent] computes from the settings table. *)
Lemma consent_flag_decide m :
  match m !! "consent" with
  | Some value => bool_decide (value = "true")
  | None => false
  end = bool_decide (m !! "consent" = Some "true").
Proof.
  destruct (m !! "consent") as [v|]; [|done].
  destruct (decide (v = "true")) as [->|Hne].
  - by rewrite !bool_decide_eq_true_2.
  - rewrite !bool_decide_eq_false_2; [done|congruence|done].
Qed.

Lemma get_consent_flag tbl m :
  get_consent (mkDB tbl (Some m)) =
    (Ok (bool_decide (m !! "consent" = Some "true")), mkDB tbl (Some m)).
Proof. by rewrite get_consent_run, consent_flag_decide. Qed.

Lemma get_consent_readonly db : (get_consent db).2 = db.
Proof. by destruct db as [tbl [m|]]. Qed.

Lemma set_consent_no_table tbl (v : bool) :
  set_consent v (mkDB tbl None) = (Raise OperationalError, mkDB tbl None).
Proof. reflexivity. Qed.

Lemma store_event_run evs st now (l : string) :
  label_check l = true →
  store_event_if_allowed now l true (mkDB (Some evs) st) =
    (Ok (), mkDB (Some (evs ++ [mkEvent (next_rowid evs) now l])) st).
Proof.
  intros Hl. unfold store_event_if_allowed. rewrite Hl. cbn [negb].
  unfold db_conn, insert_event. cbn [events settings]. by rewrite Hl.
Qed.

Lemma store_event_no_table st now (l : string) :
  label_check l = true →
  store_event_if_allowed now l true (mkDB None st) =
    (Raise OperationalError, mkDB None st).
Proof.
  intros Hl. unfold store_event_if_allowed. by rewrite Hl.
Qed.

(** What [track] does on a store with a settings table, by cases on the
    gate. *)
Lemma track_run tbl m now body :
  track now body (mkDB tbl (Some m)) =
    if bool_decide (m !! "consent" = Some "true") && label_check (label body)
    then match tbl with
         | Some evs =>
             (Ok (mkTrackResponse true),
              mkDB (Some (evs ++ [mkEvent (next_rowid evs) now (label body)]))
                   (Some m))
         | None => (Raise OperationalError, mkDB None (Some m))
         end
    else (Ok (mkTrackResponse false), mkDB tbl (Some m)).
Proof.
  unfold track. rewrite (bind_ok _ _ _ _ _ (get_consent_flag tbl m)).
  destruct (bool_decide (m !! "consent" = Some "true")); [|done].
  destruct (label_check (label body)) eqn:Hl; [|done].
  cbn [negb andb]. destruct tbl as [evs|].
  - by rewrite (bind_ok _ _ _ _ _ (store_event_run evs _ now _ Hl)).
  - by rewrite (bind_raise _ _ _ _ _ (store_event_no_table _ now _ Hl)).
Qed.

Lemma track_no_settings tbl now body :
  track now body (mkDB tbl None) = (Raise OperationalError, mkDB tbl None).
Proof. reflexivity. Qed.

Lemma summary_run evs m now period :
  let W := in_window (window_start now period) evs in
  let total := Z.of_nat (length W) in
  summary now period (mkDB (Some evs) (Some m)) =
    (Ok (if bool_decide (m !! "consent" = Some "true")
         then mkSummaryResponse
                (upright_ratio_of (count_label "good" W) total) total
         else mkSummaryResponse float_zero 0),
     mkDB (Some evs) (Some m)).
Proof.
  intros W total. unfold summary.
  rewrite (bind_ok _ _ _ _ _ (get_consent_flag (Some evs) m)).
  destruct (bool_decide (m !! "consent" = Some "true")); [|done].
  cbn [negb].
  by rewrite (bind_ok _ _ _ _ _ (aggregate_summary_run evs (Some m) now period)).
Qed.

Lemma aggregate_summary_readonly db now period :
  (aggregate_summary now period db).2 = db.
Proof.
  destruct db as [[evs|] st].
  - pose proof (aggregate_summary_run evs st now period) as Hrun.
    cbv zeta in Hrun. by rewrite Hrun.
  - done.
Qed.

Lemma summary_readonly db now period : (summary now period db).2 = db.
Proof.
  unfold summary, bind.
  pose proof (get_consent_readonly db) as Hg.
  destruct (get_consent db) as [[[|]|e] db1]; cbn [snd] in Hg; subst db1;
    [|done..].
  cbn [negb].
  pose proof (aggregate_summary_readonly db now period) as Ha.
  by destruct (aggregate_summary now period db) as [[rt|e] db2].
Qed.

Lemma summary_query_readonly db now (period : option string) :
  (summary_query now period db).2 = db.
Proof.
  unfold summary_query. destruct (period_pattern _); [|done].
  apply summary_readonly.
Qed.
End handlers.

(** ** The consent flag *)

Section consent.
Implicit Types (db : DB) (m : gmap string string).
Implicit Types (tbl : option (list Event)).

(** X1: [get_consent] reads true exactly when the stored value is the
    string ["true"]; a missing row and every other stored text read
    false. It never fails once the settings table exists. *)
Theorem get_consent_true_iff tbl m :
  ((get_consent (mkDB tbl (Some m))).1 = Ok true ↔
   m !! "consent" = Some "true") ∧
  ((get_consent (mkDB tbl (Some m))).1 = Ok false ↔
   m !! "consent" ≠ Some "true").
Proof.
  rewrite get_consent_flag. cbn [fst].
  destruct (decide (m !! "consent" = Some "true")) as [Ht|Hf].
  - rewrite bool_decide_eq_true_2 by done. by split; split.
  - rewrite bool_decide_eq_false_2 by done. by split; split.
Qed.

(** X2: [set_consent] writes the consent row and nothing else: the events
    table is left alone and every other key of the settings table keeps
    its value. *)
Theorem set_consent_frame tbl m (v : bool) (k : string) :
  k ≠ "consent" →
  ∃ m', set_consent v (mkDB tbl (Some m)) = (Ok (), mkDB tbl (Some m')) ∧
        m' !! "consent" = Some (if v then "true" else "false") ∧
        m' !! k = m !! k.
Proof.
  intros Hk. eexists. split; [apply set_consent_run|].
  split; [apply lookup_insert_eq|]. by apply lookup_insert_ne.
Qed.

Lemma set_consent_frame_witness :
  ∃ m', set_consent true
          (mkDB (Some one_event) (Some {["theme" := "dark"]})) =
          (Ok (), mkDB (Some one_event) (Some m')) ∧
        m' !! "consent" = Some "true" ∧
        m' !! "theme" = ({["theme" := "dark"]} : gmap string string) !! "theme".
Proof.
  apply (set_consent_frame (Some one_event) {["theme" := "dark"]} true "theme").
  discriminate.
Defined.

(** X3: of two consecutive [set_consent] calls the second one decides the
    store: writing [a] and then [b] leaves what writing [b] alone leaves,
    and fails when it does. *)
Theorem set_consent_last_wins db (a b : bool) :
  (set_consent a ;;; set_consent b) db = set_consent b db.
Proof.
  destruct db as [tbl [m|]]; [|done].
  rewrite (bind_ok _ _ _ _ _ (set_consent_run tbl m a)).
  rewrite !set_consent_run. by rewrite insert_insert_eq.
Qed.
End consent.

(** ** Storing events *)

Section storing.
Implicit Types (db : DB) (evs : list Event) (m : gmap string string).
Implicit Types (tbl : option (list Event)) (now : Z) (body : TrackBody).

(** X4: [store_event_if_allowed] writes nothing and returns normally when
    [allow] is false or the label is neither good nor slouched, even on a
    database without an events table; and since the label is screened
    before the INSERT, the CHECK constraint of the table never fails. *)
Theorem store_event_gate db now (l : string) (allow : bool) :
  (allow && label_check l = false →
   store_event_if_allowed now l allow db = (Ok (), db)) ∧
  (store_event_if_allowed now l allow db).1 ≠ Raise IntegrityError.
Proof.
  split.
  - intros Hgate. unfold store_event_if_allowed.
    destruct allow; [|done]. cbn [andb] in Hgate. by rewrite Hgate.
  - unfold store_event_if_allowed. destruct allow; [|done]. cbn [negb].
    destruct (label_check l) eqn:Hl; [|done]. cbn [negb].
    unfold db_conn, insert_event. destruct (events db); [|done].
    by rewrite Hl.
Qed.

Lemma store_event_gate_witness :
  store_event_if_allowed 20 "good" false (mkDB None None) =
    (Ok (), mkDB None None) ∧
  store_event_if_allowed 20 "sitting" true (mkDB None None) =
    (Ok (), mkDB None None).
Proof.
  split.
  - exact (proj1 (store_event_gate (mkDB None None) 20 "good" false) eq_refl).
  - exact (proj1 (store_event_gate (mkDB None None) 20 "sitting" true)
             eq_refl).
Defined.

(** X5: the answer of [track] tells what happened to the store. With
    [stored = true] exactly one row, carrying the clock reading and the
    label of the request, was appended, consent read true and the label is
    good or slouched; with [stored = false] the store is what it was. *)
Theorem track_stored_flag db now body (r : TrackResponse) db' :
  track now body db = (Ok r, db') →
  if stored r
  then ∃ evs,
         events db = Some evs ∧
         db' = mkDB (Some (evs ++ [mkEvent (next_rowid evs) now (label body)]))
                    (settings db) ∧
         (label body = "good" ∨ label body = "slouched") ∧
         (get_consent db).1 = Ok true
  else db' = db.
Proof.
  destruct db as [tbl [m|]]; [|by rewrite track_no_settings].
  rewrite track_run, get_consent_flag. cbn [fst events settings].
  destruct (bool_decide (m !! "consent" = Some "true")); cbn [andb].
  - destruct (label_check (label body)) eqn:Hl.
    + destruct tbl as [evs|]; [|done]. intros [= <- <-]. cbn [stored].
      exists evs. by rewrite <- label_check_spec.
    + by intros [= <- <-].
  - by intros [= <- <-].
Qed.

Lemma track_stored_flag_witness :
  ∃ evs,
    Some one_event = Some evs ∧
    mkDB (Some [mkEvent 7 10 "good"; mkEvent 8 20 "slouched"])
         (Some consent_on) =
      mkDB (Some (evs ++ [mkEvent (next_rowid evs) 20 "slouched"]))
           (Some consent_on) ∧
    ("slouched" = "good" ∨ "slouched" = "slouched") ∧
    (get_consent (mkDB (Some one_event) (Some consent_on))).1 = Ok true.
Proof.
  exact (track_stored_flag (mkDB (Some one_event) (Some consent_on)) 20
           slouched (mkTrackResponse true) _ eq_refl).
Defined.
End storing.

(** ** The summary as a function of the store and the clock *)

Section windows.
Implicit Types (db : DB) (evs : list Event) (m : gmap string string).
Implicit Types (st : option (gmap string string)).
Implicit Types (now since : Z) (period : string) (body : TrackBody).

Lemma in_window_snoc since evs e :
  Z.of_nat (length (in_window since (evs ++ [e]))) =
  Z.of_nat (length (in_window since evs)) +
  (if decide (since ≤ ev_ts e) then 1 else 0).
Proof.
  unfold in_window. rewrite filter_app, length_app, filter_cons, filter_nil.
  destruct (decide (since ≤ ev_ts e)); simpl; lia.
Qed.

Lemma in_window_mono since1 since2 evs :
  since1 ≤ since2 →
  (length (in_window since2 evs) ≤ length (in_window since1 evs))%nat.
Proof.
  intros Hle. unfold in_window. induction evs as [|e evs IH]; [done|].
  rewrite !filter_cons.
  destruct (decide (since2 ≤ ev_ts e)), (decide (since1 ≤ ev_ts e));
    simpl; lia.
Qed.

Lemma window_start_weekly_le now period :
  window_start now "weekly" ≤ window_start now period.
Proof. unfold window_start. repeat case_decide; lia || done. Qed.

Lemma window_start_mono now1 now2 period :
  now1 ≤ now2 → window_start now1 period ≤ window_start now2 period.
Proof. unfold window_start. case_decide; lia. Qed.

Lemma count_label_le_length l evs :
  count_label l evs ≤ Z.of_nat (length evs).
Proof. unfold count_label. apply Nat2Z.inj_le, length_filter. Qed.

Lemma upright_ratio_of_bounds good_count total :
  0 ≤ good_count ≤ total →
  (0 <= upright_ratio_of good_count total)%Q ∧
  (upright_ratio_of good_count total <= 1)%Q.
Proof.
  intros Hb. unfold upright_ratio_of.
  destruct (decide (total = 0)) as [->|Hnz]; [done|].
  assert (0 < inject_Z total)%Q as Hpos.
  { change 0%Q with (inject_Z 0). rewrite <- Zlt_Qlt. lia. }
  rewrite Qred_correct. split.
  - apply Qle_shift_div_l; [done|]. rewrite Qmult_0_l.
    change 0%Q with (inject_Z 0). rewrite <- Zle_Qle. lia.
  - apply Qle_shift_div_r; [done|]. rewrite Qmult_1_l.
    rewrite <- Zle_Qle. lia.
Qed.

(** X6: once an event has been stored at time [now], a summary taken at
    [now'] counts one event more than it would have without it when the
    window still reaches back to [now], and the same number when the
    event has aged out. *)
Theorem track_then_summary evs m now body now' period :
  m !! "consent" = Some "true" →
  label body = "good" ∨ label body = "slouched" →
  ∃ r r' db',
    track now body (mkDB (Some evs) (Some m)) =
      (Ok (mkTrackResponse true), db') ∧
    summary now' period (mkDB (Some evs) (Some m)) =
      (Ok r, mkDB (Some evs) (Some m)) ∧
    summary now' period db' = (Ok r', db') ∧
    totalEvents r' =
      totalEvents r +
      (if decide (window_start now' period ≤ now) then 1 else 0).
Proof.
  intros Hc Hl%label_check_spec.
  eexists _, _, _. split; [|split; [|split]].
  - rewrite track_run, Hl. by rewrite bool_decide_eq_true_2.
  - apply summary_run.
  - apply summary_run.
  - rewrite bool_decide_eq_true_2 by done. cbn [totalEvents].
    apply in_window_snoc.
Qed.

Lemma track_then_summary_witness :
  ∃ r r' db',
    track 100 slouched (mkDB (Some sample_events) (Some consent_on)) =
      (Ok (mkTrackResponse true), db') ∧
    summary 1000 "daily" (mkDB (Some sample_events) (Some consent_on)) =
      (Ok r, mkDB (Some sample_events) (Some consent_on)) ∧
    summary 1000 "daily" db' = (Ok r', db') ∧
    totalEvents r' =
      totalEvents r +
      (if decide (window_start 1000 "daily" ≤ 100) then 1 else 0).
Proof.
  exact (track_then_summary sample_events consent_on 100 slouched 1000
           "daily" eq_refl (or_intror eq_refl)).
Defined.

(** X7: whatever the store holds, a summary request that is answered
    reports a total that is not negative and a ratio between 0 and 1, and
    a total of 0 comes with the ratio 0.0. *)
Theorem summary_bounds db now (period : option string) resp db' :
  summary_query now period db = (Ok resp, db') →
  0 ≤ totalEvents resp ∧
  (0 <= uprightRatio resp)%Q ∧ (uprightRatio resp <= 1)%Q ∧
  (totalEvents resp = 0 → uprightRatio resp = float_zero).
Proof.
  unfold summary_query. destruct (period_pattern _); [|done].
  destruct db as [[evs|] [m|]]; try done.
  - pose proof (summary_run evs m now (default "daily" period)) as Hrun.
    cbv zeta in Hrun. rewrite Hrun. intros [= <- _].
    destruct (bool_decide _); cbn [totalEvents uprightRatio]; [|done].
    set (W := in_window _ evs).
    pose proof (count_label_nonneg "good" W).
    pose proof (count_label_le_length "good" W).
    destruct (upright_ratio_of_bounds (count_label "good" W)
                (Z.of_nat (length W))) as [? ?]; [lia|].
    repeat split; [lia|done|done|].
    intros Hz. unfold upright_ratio_of. by rewrite Hz.
  - unfold summary. rewrite (bind_ok _ _ _ _ _ (get_consent_flag None m)).
    destruct (bool_decide _); cbn [negb].
    + by rewrite (bind_raise _ _ _ _ _
                    (aggregate_summary_no_table (Some m) now _)).
    + by intros [= <- _].
Qed.

Lemma summary_bounds_witness :
  0 ≤ 4 ∧ (0 <= Qmake 3 4)%Q ∧ (Qmake 3 4 <= 1)%Q ∧
  (4 = 0 → Qmake 3 4 = float_zero).
Proof.
  exact (summary_bounds (mkDB (Some sample_events) (Some consent_on)) 1000
           None (mkSummaryResponse (Qmake 3 4) 4) _ eq_refl).
Defined.

(** X9: on the same store at the same time, the weekly summary counts at
    least as many events as the summary of any other period. *)
Theorem weekly_covers_daily evs st now period :
  ∃ r t rw tw,
    aggregate_summary now period (mkDB (Some evs) st) =
      (Ok (r, t), mkDB (Some evs) st) ∧
    aggregate_summary now "weekly" (mkDB (Some evs) st) =
      (Ok (rw, tw), mkDB (Some evs) st) ∧
    t ≤ tw.
Proof.
  eexists _, _, _, _.
  split; [apply aggregate_summary_run|].
  split; [apply aggregate_summary_run|].
  pose proof (in_window_mono _ _ evs (window_start_weekly_le now period)).
  lia.
Qed.

(** X10: events only leave the window as time passes: on the same store,
    a later summary of the same period never counts more events than an
    earlier one. *)
Theorem window_ages_out evs st now1 now2 period :
  now1 ≤ now2 →
  ∃ r1 t1 r2 t2,
    aggregate_summary now1 period (mkDB (Some evs) st) =
      (Ok (r1, t1), mkDB (Some evs) st) ∧
    aggregate_summary now2 period (mkDB (Some evs) st) =
      (Ok (r2, t2), mkDB (Some evs) st) ∧
    t2 ≤ t1.
Proof.
  intros Hle. eexists _, _, _, _.
  split; [apply aggregate_summary_run|].
  split; [apply aggregate_summary_run|].
  pose proof (in_window_mono _ _ evs (window_start_mono _ _ period Hle)).
  lia.
Qed.

Lemma window_ages_out_witness :
  ∃ r1 t1 r2 t2,
    aggregate_summary 1000 "daily" (mkDB (Some sample_events) None) =
      (Ok (r1, t1), mkDB (Some sample_events) None) ∧
    aggregate_summary 87395 "daily" (mkDB (Some sample_events) None) =
      (Ok (r2, t2), mkDB (Some sample_events) None) ∧
    t2 ≤ t1.
Proof.
  apply (window_ages_out sample_events None 1000 87395 "daily"). lia.
Defined.
End windows.

(** ** The application, one request at a time *)

Section application.
Implicit Types (db : DB) (evs : list Event) (m : gmap string string).
Implicit Types (tbl : option (list Event)) (st : option (gmap string string)).
Implicit Types (now : Z) (req : Request) (body : TrackBody).

Lemma bind_ret_snd {A B} (h : M A) (f : A → B) db :
  (bind h (λ x, ret (f x)) db).2 = (h db).2.
Proof. unfold bind. by destruct (h db) as [[a|e] db']. Qed.

Lemma bind_ret_raise {A B} (h : M A) (f : A → B) db e :
  (bind h (λ x, ret (f x)) db).1 = Raise e → (h db).1 = Raise e.
Proof. unfold bind. destruct (h db) as [[a|e'] db']; [done|]. by intros [= ->]. Qed.

Lemma set_consent_route_run tbl m (v : bool) :
  set_consent_route v (mkDB tbl (Some m)) =
    (Ok v, mkDB tbl
             (Some (<["consent" := if v then "true" else "false"]> m))).
Proof.
  unfold set_consent_route.
  rewrite (bind_ok _ _ _ _ _ (set_consent_run tbl m v)).
  rewrite get_consent_run, lookup_insert_eq. by destruct v.
Qed.

Lemma summary_no_events m now period :
  summary now period (mkDB None (Some m)) =
    if bool_decide (m !! "consent" = Some "true")
    then (Raise OperationalError, mkDB None (Some m))
    else (Ok (mkSummaryResponse float_zero 0), mkDB None (Some m)).
Proof.
  unfold summary. rewrite (bind_ok _ _ _ _ _ (get_consent_flag None m)).
  by destruct (bool_decide _).
Qed.

(** The store a request leaves when the settings table exists. *)
Lemma app_store tbl m now req :
  (app now req (mkDB tbl (Some m))).2 =
    match req with
    | PostConsent v =>
        mkDB tbl (Some (<["consent" := if v then "true" else "false"]> m))
    | PostTrack body =>
        match tbl with
        | Some evs =>
            if bool_decide (m !! "consent" = Some "true")
               && label_check (label body)
            then mkDB (Some (evs ++
                               [mkEvent (next_rowid evs) now (label body)]))
                      (Some m)
            else mkDB tbl (Some m)
        | None => mkDB tbl (Some m)
        end
    | _ => mkDB tbl (Some m)
    end.
Proof.
  destruct req as [| |v|body|p]; unfold app; rewrite bind_ret_snd.
  - done.
  - apply get_consent_readonly.
  - by rewrite set_consent_route_run.
  - rewrite track_run.
    destruct (bool_decide _ && label_check _); by destruct tbl.
  - apply summary_query_readonly.
Qed.

(** Without a settings table no request writes. *)
Lemma app_store_no_settings tbl now req :
  (app now req (mkDB tbl None)).2 = mkDB tbl None.
Proof.
  destruct req as [| |v|body|p]; unfold app; rewrite bind_ret_snd; try done.
  apply summary_query_readonly.
Qed.

End application.

(** ** What every request guarantees *)

Section guarantees.
Implicit Types (db : DB) (evs : list Event) (m : gmap string string).
Implicit Types (tbl : option (list Event)) (st : option (gmap string string)).
Implicit Types (now : Z) (req : Request) (body : TrackBody).
Implicit Types (reqs : list (Z * Request)).

(** A property of the store that every request keeps holds after any
    sequence of requests. *)
Lemma serve_invariant (P : DB → Prop) :
  (∀ now req db, P db → P (app now req db).2) →
  ∀ reqs db, P db → P (serve reqs db).
Proof.
  intros Hstep reqs. induction reqs as [|[now req] reqs IH]; intros db Hdb.
  - done.
  - cbn [serve]. by apply IH, Hstep.
Qed.

Lemma app_events_prefix db now req evs :
  events db = Some evs →
  ∃ extra,
    events (app now req db).2 = Some (evs ++ extra) ∧
    (extra = [] ∨
     ∃ body, req = PostTrack body ∧
             extra = [mkEvent (next_rowid evs) now (label body)] ∧
             label_check (label body) = true ∧
             (get_consent db).1 = Ok true).
Proof.
  destruct db as [tbl [m|]]; cbn [events]; intros ->.
  - rewrite app_store.
    destruct req as [| |v|body|p];
      try (exists []; by rewrite app_nil_r; auto).
    destruct (bool_decide (m !! "consent" = Some "true")) eqn:Hc;
      destruct (label_check (label body)) eqn:Hl; cbn [andb];
      try (exists []; by rewrite app_nil_r; auto).
    eexists. split; [done|]. right. exists body.
    by rewrite get_consent_flag, Hc.
  - rewrite app_store_no_settings. exists []. by rewrite app_nil_r; auto.
Qed.

Lemma app_settings_frame db now req :
  (∀ v, req ≠ PostConsent v) →
  settings (app now req db).2 = settings db.
Proof.
  intros Hreq. destruct db as [tbl [m|]].
  - rewrite app_store. destruct req as [| |v|body|p]; try done.
    + by destruct (Hreq v).
    + destruct tbl; [|done]. by destruct (bool_decide _ && label_check _).
  - by rewrite app_store_no_settings.
Qed.


(** X11: [GET /api/health] answers [ok = true] on any database, also one
    without tables, and neither it nor [GET /api/consent] nor
    [GET /api/summary] ever changes the store, whether they are answered
    or fail. *)
Theorem reads_do_not_write db now :
  app now GetHealth db = (Ok (HealthJson true), db) ∧
  (app now GetConsent db).2 = db ∧
  (∀ p, (app now (GetSummary p) db).2 = db).
Proof.
  split; [done|]. split.
  - unfold app. rewrite bind_ret_snd. apply get_consent_readonly.
  - intros p. unfold app. rewrite bind_ret_snd.
    apply summary_query_readonly.
Qed.

(** X12: a request that fails leaves the store exactly as it found it. *)
Theorem failed_request_keeps_store db now req e :
  (app now req db).1 = Raise e → (app now req db).2 = db.
Proof.
  destruct db as [tbl [m|]]; [|intros _; apply app_store_no_settings].
  rewrite app_store. destruct req as [| |v|body|p]; try done.
  destruct tbl as [evs|]; [|done].
  unfold app. intros H%bind_ret_raise. revert H. rewrite track_run.
  by destruct (bool_decide _ && label_check _).
Qed.

Lemma failed_request_keeps_store_witness :
  (app 20 (PostTrack good) (mkDB None (Some consent_on))).2 =
    mkDB None (Some consent_on).
Proof.
  exact (failed_request_keeps_store (mkDB None (Some consent_on)) 20
           (PostTrack good) OperationalError eq_refl).
Defined.

(** X13: the event log is append-only. Every request leaves the rows that
    were there, in their order; the only addition is the single row of a
    track request with a good or slouched label made while consent reads
    true, stamped with the clock reading of that request. *)
Theorem event_log_append_only db now req evs :
  events db = Some evs →
  ∃ extra,
    events (app now req db).2 = Some (evs ++ extra) ∧
    (extra = [] ∨
     ∃ body, req = PostTrack body ∧
             extra = [mkEvent (next_rowid evs) now (label body)] ∧
             label_check (label body) = true ∧
             (get_consent db).1 = Ok true).
Proof. apply app_events_prefix. Qed.

Lemma event_log_append_only_witness :
  ∃ extra,
    events (app 20 (PostTrack slouched)
                (mkDB (Some one_event) (Some consent_on))).2 =
      Some (one_event ++ extra) ∧
    (extra = [] ∨
     ∃ body, PostTrack slouched = PostTrack body ∧
             extra = [mkEvent (next_rowid one_event) 20 (label body)] ∧
             label_check (label body) = true ∧
             (get_consent (mkDB (Some one_event) (Some consent_on))).1 =
               Ok true).
Proof.
  exact (event_log_append_only (mkDB (Some one_event) (Some consent_on)) 20
           (PostTrack slouched) one_event eq_refl).
Defined.

(** X14: over any sequence of requests no stored event is changed,
    removed or reordered, and at most one row is added per request. *)
Theorem served_log_grows db reqs evs :
  events db = Some evs →
  ∃ extra,
    events (serve reqs db) = Some (evs ++ extra) ∧
    (length extra ≤ length reqs)%nat.
Proof.
  revert db evs. induction reqs as [|[now req] reqs IH]; intros db evs Hev.
  - exists []. by rewrite app_nil_r.
  - destruct (app_events_prefix db now req evs Hev) as (x & Hx & Hcase).
    destruct (IH _ _ Hx) as (extra & Hextra & Hlen).
    exists (x ++ extra). cbn [serve]. rewrite Hextra, app_assoc.
    split; [done|]. rewrite length_app. cbn [length].
    destruct Hcase as [->|(body & _ & -> & _)]; cbn [length]; lia.
Qed.

Lemma served_log_grows_witness :
  ∃ extra,
    events (serve [(20, PostTrack good); (30, PostConsent false);
                   (40, PostTrack good)]
                  (mkDB (Some one_event) (Some consent_on))) =
      Some (one_event ++ extra) ∧
    (length extra ≤ 3)%nat.
Proof.
  exact (served_log_grows (mkDB (Some one_event) (Some consent_on))
           [(20, PostTrack good); (30, PostConsent false);
            (40, PostTrack good)] one_event eq_refl).
Defined.

(** X15: the settings table changes only through [POST /api/consent]: a
    sequence of requests without one leaves it as it was, so the consent
    flag never flips on its own. *)
Theorem consent_changes_only_by_post db reqs :
  Forall (λ nr, ∀ v, nr.2 ≠ PostConsent v) reqs →
  settings (serve reqs db) = settings db.
Proof.
  intros Hreqs. revert db.
  induction Hreqs as [|[now req] reqs Hreq _ IH]; intros db; [done|].
  cbn [serve]. rewrite IH. by apply app_settings_frame.
Qed.

Lemma consent_changes_only_by_post_witness :
  settings (serve [(20, PostTrack good); (30, GetSummary None);
                   (40, GetConsent)]
                  (mkDB (Some one_event) (Some consent_on))) =
    Some consent_on.
Proof.
  apply (consent_changes_only_by_post
           (mkDB (Some one_event) (Some consent_on))).
  repeat constructor; discriminate.
Defined.


End guarantees.

(** ** Stores the service can reach *)

Section reachable.
Implicit Types (db : DB) (evs : list Event) (m : gmap string string).
Implicit Types (tbl : option (list Event)) (st : option (gmap string string)).
Implicit Types (now : Z) (req : Request) (body : TrackBody).
Implicit Types (reqs : list (Z * Request)).

Lemma app_labels_checked now req db :
  (∃ evs, events db = Some evs ∧
          Forall (λ e, label_check (ev_label e) = true) evs) →
  ∃ evs, events (app now req db).2 = Some evs ∧
         Forall (λ e, label_check (ev_label e) = true) evs.
Proof.
  intros (evs & Hev & Hall).
  destruct (app_events_prefix db now req evs Hev) as (x & Hx & Hcase).
  exists (evs ++ x). split; [done|]. apply Forall_app. split; [done|].
  destruct Hcase as [->|(body & _ & -> & Hl & _)]; [done|].
  by repeat constructor.
Qed.

(** X17: the CHECK constraint of the events table is an invariant of the
    service. If every stored label is good or slouched, then after any
    sequence of requests every stored label still is, and every summary
    total is count(good) + count(slouched) of its window. *)
Theorem served_labels_checked db reqs evs :
  events db = Some evs →
  Forall (λ e, label_check (ev_label e) = true) evs →
  ∃ evs',
    events (serve reqs db) = Some evs' ∧
    Forall (λ e, label_check (ev_label e) = true) evs' ∧
    (∀ now period,
       ∃ ratio,
         aggregate_summary now period (serve reqs db) =
           (Ok (ratio,
                count_label "good" (in_window (window_start now period) evs')
                + count_label "slouched"
                    (in_window (window_start now period) evs')),
            serve reqs db)).
Proof.
  intros Hev Hall.
  destruct (serve_invariant
              (λ db, ∃ evs, events db = Some evs ∧
                     Forall (λ e, label_check (ev_label e) = true) evs)
              app_labels_checked reqs db) as (evs' & Hev' & Hall');
    [by eauto|].
  exists evs'. split; [done|]. split; [done|]. intros now period.
  destruct (serve reqs db) as [tbl st]. cbn [events] in Hev'. subst tbl.
  eexists. rewrite aggregate_summary_run. do 2 f_equal.
  rewrite <- known_labels_total; [done|].
  rewrite Forall_forall in Hall'. apply Forall_forall.
  intros e [He _]%in_window_elem. by apply Hall'.
Qed.

Lemma served_labels_checked_witness :
  ∃ evs',
    events (serve [(20, PostConsent true); (30, PostTrack sitting);
                   (40, PostTrack slouched)] fresh_db) = Some evs' ∧
    Forall (λ e, label_check (ev_label e) = true) evs' ∧
    (∀ now period,
       ∃ ratio,
         aggregate_summary now period
           (serve [(20, PostConsent true); (30, PostTrack sitting);
                   (40, PostTrack slouched)] fresh_db) =
           (Ok (ratio,
                count_label "good" (in_window (window_start now period) evs')
                + count_label "slouched"
                    (in_window (window_start now period) evs')),
            serve [(20, PostConsent true); (30, PostTrack sitting);
                   (40, PostTrack slouched)] fresh_db)).
Proof.
  apply (served_labels_checked fresh_db _ []); [reflexivity|constructor].
Defined.
End reachable.

(** ** Consent, startup and missing tables *)

Section lifecycle.
Implicit Types (db : DB) (evs : list Event) (m : gmap string string).
Implicit Types (tbl : option (list Event)) (st : option (gmap string string)).
Implicit Types (now : Z) (req : Request) (body : TrackBody).
Implicit Types (reqs : list (Z * Request)).

(** X19: withdrawing consent hides the stored events but does not delete
    them: right after [set_consent false] the summary is (0.0, 0) and the
    events table is untouched, and once consent is given again the
    summary is computed from all of them. *)
Theorem withdrawal_keeps_events evs m now period :
  (set_consent false ;;; summary now period) (mkDB (Some evs) (Some m)) =
    (Ok (mkSummaryResponse float_zero 0),
     mkDB (Some evs) (Some (<["consent" := "false"]> m))) ∧
  ∃ ratio total,
    aggregate_summary now period (mkDB (Some evs) (Some m)) =
      (Ok (ratio, total), mkDB (Some evs) (Some m)) ∧
    ((set_consent false ;;; set_consent true ;;; summary now period)
       (mkDB (Some evs) (Some m))).1 =
      Ok (mkSummaryResponse ratio total).
Proof.
  split.
  - rewrite (bind_ok _ _ _ _ _ (set_consent_run (Some evs) m false)).
    pose proof (summary_run evs (<["consent" := "false"]> m) now period)
      as Hrun.
    cbv zeta in Hrun. rewrite Hrun, lookup_insert_eq.
    by rewrite bool_decide_eq_false_2.
  - eexists _, _. split; [apply aggregate_summary_run|].
    rewrite (bind_ok _ _ _ _ _ (set_consent_run (Some evs) m false)).
    rewrite (bind_ok _ _ _ _ _ (set_consent_run (Some evs) _ true)).
    pose proof (summary_run evs
                  (<["consent" := "true"]> (<["consent" := "false"]> m))
                  now period) as Hrun.
    cbv zeta in Hrun. rewrite Hrun, lookup_insert_eq.
    by rewrite bool_decide_eq_true_2.
Qed.

Lemma app_event_origin db now req evs evs' e :
  events db = Some evs →
  events (app now req db).2 = Some evs' →
  e ∈ evs' →
  e ∈ evs ∨ ∃ body, req = PostTrack body ∧ ev_ts e = now ∧
                    ev_label e = label body.
Proof.
  intros Hev Hev' He.
  destruct (app_events_prefix db now req evs Hev) as (x & Hx & Hcase).
  rewrite Hx in Hev'. injection Hev' as <-.
  apply elem_of_app in He as [He|He]; [by left|].
  destruct Hcase as [->|(body & -> & -> & _)]; [by apply elem_of_nil in He|].
  apply list_elem_of_singleton in He as ->. right. by exists body.
Qed.

(** X20: no event is invented. After any sequence of requests, every row
    of the log was either there before or carries the clock reading and
    the label of one of the track requests served. *)
Theorem stored_events_come_from_track db reqs evs evs' e :
  events db = Some evs →
  events (serve reqs db) = Some evs' →
  e ∈ evs' →
  e ∈ evs ∨
  ∃ body, (ev_ts e, PostTrack body) ∈ reqs ∧ ev_label e = label body.
Proof.
  revert db evs. induction reqs as [|[now req] reqs IH]; intros db evs Hev.
  - cbn [serve]. rewrite Hev. intros [= <-] He. by left.
  - cbn [serve]. intros Hev' He.
    destruct (app_events_prefix db now req evs Hev) as (x & Hx & _).
    destruct (IH _ _ Hx Hev' He) as [Hin|(body & Hin & Hl)].
    + destruct (app_event_origin db now req evs _ e Hev Hx Hin)
        as [?|(body & -> & <- & Hl)]; [by left|].
      right. exists body. split; [left|done].
    + right. exists body. split; [by right|done].
Qed.

Lemma stored_events_come_from_track_witness :
  mkEvent 8 30 "slouched" ∈ one_event ∨
  ∃ body, (ev_ts (mkEvent 8 30 "slouched"), PostTrack body) ∈
            [(20, PostConsent true); (30, PostTrack slouched)] ∧
          ev_label (mkEvent 8 30 "slouched") = label body.
Proof.
  apply (stored_events_come_from_track
           (mkDB (Some one_event) (Some consent_off))
           [(20, PostConsent true); (30, PostTrack slouched)]
           one_event
           [mkEvent 7 10 "good"; mkEvent 8 30 "slouched"]);
    [reflexivity|reflexivity|].
  right. left.
Defined.

(** X21: on a database without a settings table, as before [init_db] has
    run, every request except the health check (and except a summary
    request the query pattern rejects first) fails with a storage error
    and leaves the database as it is. *)
Theorem no_settings_table tbl now req :
  req ≠ GetHealth →
  (∀ p, req = GetSummary (Some p) → period_pattern p = true) →
  app now req (mkDB tbl None) = (Raise OperationalError, mkDB tbl None).
Proof.
  intros Hh Hp. destruct req as [| |v|body|[p|]]; try done.
  unfold app, summary_query. cbn [default from_option id].
  by rewrite (Hp p eq_refl).
Qed.

Lemma no_settings_table_witness :
  app 20 (PostConsent true) (mkDB None None) =
    (Raise OperationalError, mkDB None None).
Proof.
  apply (no_settings_table None 20 (PostConsent true)); discriminate.
Defined.

(** X22: on a database that has a settings table but no events table, the
    gate is evaluated before the table is touched: [track] fails exactly
    when consent reads true and the label is good or slouched, [summary]
    exactly when consent reads true; otherwise they answer
    [stored = false] and (0.0, 0). The store is unchanged either way. *)
Theorem no_events_table m now body period :
  track now body (mkDB None (Some m)) =
    (if bool_decide (m !! "consent" = Some "true")
        && label_check (label body)
     then Raise OperationalError
     else Ok (mkTrackResponse false),
     mkDB None (Some m)) ∧
  summary now period (mkDB None (Some m)) =
    (if bool_decide (m !! "consent" = Some "true")
     then Raise OperationalError
     else Ok (mkSummaryResponse float_zero 0),
     mkDB None (Some m)).
Proof.
  split.
  - rewrite track_run. by destruct (bool_decide _ && label_check _).
  - rewrite summary_no_events. by destruct (bool_decide _).
Qed.

(** X23: [init_db] never fails and never drops data: the rows of an
    existing events table are kept (a missing table is created empty),
    every row of an existing settings table is kept, and the only key it
    may add is consent. *)
Theorem init_db_preserves tbl st :
  ∃ m',
    init_db (mkDB tbl st) =
      (Ok (), mkDB (Some (default [] tbl)) (Some m')) ∧
    default ∅ st ⊆ m' ∧
    dom m' = dom (default ∅ st) ∪ {["consent"]}.
Proof.
  destruct st as [m|]; cbn [default from_option id].
  - destruct (m !! "consent") as [v|] eqn:Hv.
    + exists m. split; [by eapply init_db_present|]. split; [done|].
      apply elem_of_dom_2 in Hv. rewrite (union_comm_L (dom m)).
      symmetry. by apply subseteq_union_1_L, singleton_subseteq_l.
    + exists (<["consent" := "false"]> m).
      split; [by apply init_db_absent|].
      split; [by apply insert_subseteq|].
      by rewrite dom_insert_L, union_comm_L.
  - exists {["consent" := "false"]}. split; [apply init_db_no_table|].
    split; [apply map_empty_subseteq|].
    by rewrite dom_singleton_L, dom_empty_L, union_empty_l_L.
Qed.
End lifecycle.
